(** * Reaction-energy notebook of matgenb: the entry lookup [get_most_stable_entry]

    Shallow embedding of the notebook cell (src/unnamed/part_000, lines 41-52)

      all_entries = a.get_entries_in_chemsys(['Ca', 'C', 'O'])
      def get_most_stable_entry(formula):
          relevant_entries = [entry for entry in all_entries
                              if entry.composition.reduced_formula
                                 == Composition(formula).reduced_formula]
          relevant_entries = sorted(relevant_entries, key=lambda e: e.energy_per_atom)
          return relevant_entries[0]

      CaO = get_most_stable_entry("CaO")
      CO2 = get_most_stable_entry("CO2")
      CaCO3 = get_most_stable_entry("CaCO3")

    and of the loop writing CIF files in the notebook on disordered
    structures.

    pymatgen is not part of the repository. Its [Composition] constructor,
    the [reduced_formula] string of a composition and the [num_atoms] of a
    composition are kept abstract (the class [Pymatgen]); every statement
    holds for any behaviour of them. Energies are Python floats, i.e. IEEE
    binary64 numbers: Rocq's primitive floats. Python exceptions are values
    of [result]. *)

From Stdlib Require Import Ascii String Sorted PrimFloat.
From stdpp Require Import base gmap list strings pretty.

Open Scope string_scope.

(** ** Python exceptions and the error monad *)

Record exn := PyExc { exn_type : string; exn_msg : string }.

Inductive result (A : Type) : Type :=
| Ok (a : A)
| Err (e : exn).
Arguments Ok {A} a.
Arguments Err {A} e.

Global Instance result_ret : MRet result := fun A a => Ok a.
Global Instance result_bind : MBind result :=
  fun A B f m => match m with Ok a => f a | Err e => Err e end.

(** The class name of the exception a computation raises, if any. *)
Definition raised_type {A} (r : result A) : option string :=
  match r with Ok _ => None | Err e => Some (exn_type e) end.

Definition IndexError : exn := PyExc "IndexError" "list index out of range".
Definition ZeroDivisionError : exn := PyExc "ZeroDivisionError" "float division by zero".
Definition NameError : exn := PyExc "NameError" "name is not defined".

(** [l[i]] on a Python list, for a non-negative index. *)
Definition py_getitem {A} (l : list A) (i : nat) : result A :=
  match l !! i with Some x => Ok x | None => Err IndexError end.

(** ** The parts of pymatgen the cell uses *)

(** [Composition(formula)] may raise; [c.reduced_formula] is a string
    compared with [==]; [c.num_atoms] is a float. *)
Class Pymatgen := {
  Comp : Type;
  Composition : string -> result Comp;
  reduced_formula : Comp -> string;
  num_atoms : Comp -> float
}.

(** A [ComputedEntry]: its composition and its (corrected) energy in eV. *)
Record ComputedEntry {P : Pymatgen} := mkEntry { composition : Comp; energy : float }.
Arguments ComputedEntry {P}.
Arguments mkEntry {P} composition energy.

(** [Entry.energy_per_atom] is [self.energy / self.composition.num_atoms];
    Python's float division raises [ZeroDivisionError] on a zero divisor
    ([0.0] or [-0.0]). *)
Definition energy_per_atom {P : Pymatgen} (e : ComputedEntry) : result float :=
  let n := num_atoms (composition e) in
  if PrimFloat.eqb n 0%float then Err ZeroDivisionError
  else Ok (PrimFloat.div (energy e) n).

(** The division itself, and the condition under which it does not raise. *)
Definition epa {P : Pymatgen} (e : ComputedEntry) : float :=
  PrimFloat.div (energy e) (num_atoms (composition e)).

Definition has_atoms {P : Pymatgen} (e : ComputedEntry) : bool :=
  negb (PrimFloat.eqb (num_atoms (composition e)) 0%float).

(** ** Python's [sorted] with a key *)

(** [sorted] evaluates the key of every element first, from left to right;
    the first key that raises aborts the call. *)
Fixpoint eval_keys {A K} (key : A -> result K) (l : list A) : result (list (K * A)) :=
  match l with
  | [] => Ok []
  | x :: t => k ← key x; r ← eval_keys key t; Ok ((k, x) :: r)
  end.

(** The keys are compared with [<] only, and the sort is stable. The
    element [p] comes before every element of the sorted tail; it is moved
    past an element only when that element's key is strictly smaller. When
    [<] is a strict weak order on the keys (floats without NaN), every
    stable sort gives this list. *)
Fixpoint insert_keyed {K A} (lt : K -> K -> bool) (p : K * A) (l : list (K * A))
    : list (K * A) :=
  match l with
  | [] => [p]
  | q :: t => if lt q.1 p.1 then q :: insert_keyed lt p t else p :: q :: t
  end.

Fixpoint sort_keyed {K A} (lt : K -> K -> bool) (l : list (K * A)) : list (K * A) :=
  match l with
  | [] => []
  | p :: t => insert_keyed lt p (sort_keyed lt t)
  end.

Definition sorted {A} (l : list A) (key : A -> result float) : result (list A) :=
  ks ← eval_keys key l; Ok (snd <$> sort_keyed PrimFloat.ltb ks).

(** ** The notebook function *)

(** The list comprehension: the condition evaluates
    [entry.composition.reduced_formula] and [Composition(formula)] for
    every entry, in order. *)
Fixpoint relevant_entries {P : Pymatgen} (all_entries : list ComputedEntry) (formula : string)
    : result (list ComputedEntry) :=
  match all_entries with
  | [] => Ok []
  | entry :: t =>
      c ← Composition formula;
      let keep := bool_decide (reduced_formula (composition entry) = reduced_formula c) in
      rest ← relevant_entries t formula;
      Ok (if keep then entry :: rest else rest)
  end.

(** The first two lines of the body: the relevant entries sorted by
    energy per atom (the spec's [entries_for]). *)
Definition entries_for {P : Pymatgen} (all_entries : list ComputedEntry) (formula : string)
    : result (list ComputedEntry) :=
  relevant ← relevant_entries all_entries formula;
  sorted relevant energy_per_atom.

Definition get_most_stable_entry {P : Pymatgen} (all_entries : list ComputedEntry)
    (formula : string) : result ComputedEntry :=
  relevant ← entries_for all_entries formula;
  py_getitem relevant 0.

(** ** The heap seen by the notebook

    [all_entries] is a global name bound to a list object. The list
    comprehension builds a new list object, and [sorted] builds another one;
    the local name [relevant_entries] is rebound from the first to the
    second. Entries are only read. *)

Abbreviation loc := positive.

Record heap {P : Pymatgen} := mkHeap {
  globals : gmap string loc;
  lists : gmap loc (list ComputedEntry);
  next_loc : loc
}.
Arguments heap {P}.
Arguments mkHeap {P} globals lists next_loc.

(** Every allocated list lies below the allocation pointer. *)
Definition wf_heap {P : Pymatgen} (h : heap) : Prop :=
  ∀ l, is_Some (lists h !! l) -> (l < next_loc h)%positive.

(** State and exceptions: a raised exception keeps the heap reached so far. *)
Definition M {P : Pymatgen} (A : Type) : Type := heap -> result A * heap.

Global Instance M_ret {P : Pymatgen} : MRet (@M P) := fun A a h => (Ok a, h).
Global Instance M_bind {P : Pymatgen} : MBind (@M P) := fun A B k m h =>
  match m h with
  | (Ok a, h') => k a h'
  | (Err e, h') => (Err e, h')
  end.

Definition lift {P : Pymatgen} {A} (r : result A) : M A := fun h => (r, h).

Definition DanglingReference : exn := PyExc "SystemError" "dangling reference".

Definition load_global {P : Pymatgen} (name : string) : M loc := fun h =>
  match globals h !! name with
  | Some l => (Ok l, h)
  | None => (Err NameError, h)
  end.

Definition read_list {P : Pymatgen} (l : loc) : M (list ComputedEntry) := fun h =>
  match lists h !! l with
  | Some xs => (Ok xs, h)
  | None => (Err DanglingReference, h)
  end.

(** A new list object. *)
Definition alloc_list {P : Pymatgen} (xs : list ComputedEntry) : M loc := fun h =>
  (Ok (next_loc h),
   mkHeap (globals h) (<[next_loc h := xs]> (lists h)) (Pos.succ (next_loc h))).

(** [get_most_stable_entry] run against the heap, statement by statement. *)
Definition get_most_stable_entry_heap {P : Pymatgen} (formula : string) : M ComputedEntry :=
  a ← load_global "all_entries";
  all_entries ← read_list a;
  relevant ← lift (relevant_entries all_entries formula);
  l1 ← alloc_list relevant;
  xs ← read_list l1;
  ys ← lift (sorted xs energy_per_atom);
  l2 ← alloc_list ys;
  zs ← read_list l2;
  lift (py_getitem zs 0).

(** ** The three lookups of the notebook (src/unnamed/part_000, lines 50-52)

      CaO = get_most_stable_entry("CaO")
      CO2 = get_most_stable_entry("CO2")
      CaCO3 = get_most_stable_entry("CaCO3")

    The calls run one after the other on the same heap; the first exception
    stops the cell. The three entries bound to the names are returned in
    order. *)
Fixpoint lookup_all {P : Pymatgen} (formulas : list string) : M (list ComputedEntry) :=
  match formulas with
  | [] => mret []
  | f :: t => e ← get_most_stable_entry_heap f; es ← lookup_all t; mret (e :: es)
  end.

Definition notebook_lookups {P : Pymatgen} : M (list ComputedEntry) :=
  lookup_all ["CaO"; "CO2"; "CaCO3"].

(** The same calls on the pure model, over a fixed [all_entries]. *)
Fixpoint get_all {P : Pymatgen} (all_entries : list ComputedEntry) (formulas : list string)
    : result (list ComputedEntry) :=
  match formulas with
  | [] => Ok []
  | f :: t =>
      e ← get_most_stable_entry all_entries f;
      es ← get_all all_entries t;
      Ok (e :: es)
  end.

(** ** Writing the enumerated structures to CIF files
    (src/notebooks/2013-01-01-Ordering Disordered Structures.ipynb, lines 189-191)

      for i, d in enumerate(ss):
          d["structure"].to(filename="CuAu_%d.cif" % i)

    Each [d] is a dict; [d["structure"]] raises [KeyError] when the key is
    absent. [to] writes the CIF text of the structure, [to_cif], to the file,
    replacing an existing file of that name. The file system maps file names
    to contents; files written before an exception stay written. *)

Definition KeyError (k : string) : exn := PyExc "KeyError" k.

Definition dict_getitem {V} (d : gmap string V) (k : string) : result V :=
  match d !! k with Some v => Ok v | None => Err (KeyError k) end.

(** ["CuAu_%d.cif" % i]: [pretty] is the decimal rendering of a natural number. *)
Definition cif_filename (i : nat) : string := "CuAu_" +:+ pretty i +:+ ".cif".

Fixpoint write_cifs {V} (to_cif : V -> string) (i : nat) (ss : list (gmap string V))
    (fs : gmap string string) : result unit * gmap string string :=
  match ss with
  | [] => (Ok (), fs)
  | d :: t =>
      match dict_getitem d "structure" with
      | Err e => (Err e, fs)
      | Ok s => write_cifs to_cif (S i) t (<[cif_filename i := to_cif s]> fs)
      end
  end.

(** The loop of the cell: [enumerate] starts at 0. *)
Definition write_all_cifs {V} (to_cif : V -> string) (ss : list (gmap string V))
    (fs : gmap string string) : result unit * gmap string string :=
  write_cifs to_cif 0 ss fs.

(** Pairs each element with its key, as [sorted] does before sorting. *)

(** Pairs each element with its key, as [sorted] does before sorting. *)
Definition keyed {K A} (f : A -> K) (l : list A) : list (K * A) := (fun x => (f x, x)) <$> l.

(** [x] may come before [y] in a sorted list: [y < x] does not hold. *)
Definition not_after {K} (lt : K -> K -> bool) (x y : K) : Prop := lt y x = false.

(** [<] is a strict weak order on the keys [ks]: irreflexive, transitive,
    and its complement is transitive. Python floats satisfy it as long as
    no key is NaN. *)
Definition swo_on {K} (lt : K -> K -> bool) (ks : list K) : Prop :=
  ∀ a b c, a ∈ ks -> b ∈ ks -> c ∈ ks ->
    lt a a = false ∧
    (lt a b = true -> lt b c = true -> lt a c = true) ∧
    (lt a b = false -> lt b c = false -> lt a c = false).

(** The same test, computed. *)
Definition swo_onb {K} (lt : K -> K -> bool) (ks : list K) : bool :=
  forallb (fun a => forallb (fun b => forallb (fun c =>
    negb (lt a a) && implb (lt a b && lt b c) (lt a c) &&
    implb (negb (lt a b) && negb (lt b c)) (negb (lt a c))) ks) ks) ks.

(** Two keys tie when neither is smaller. *)
Definition key_tie {K} (lt : K -> K -> bool) (k k' : K) : bool := negb (lt k' k) && negb (lt k k').

(** The entries whose energy per atom ties with [k]. *)
Definition same_key {P : Pymatgen} (k : float) (e : ComputedEntry) : bool :=
  key_tie PrimFloat.ltb k (epa e).

(** [h'] keeps the global bindings of [h] and every list object of [h]. *)
Definition heap_extends {P : Pymatgen} (h h' : heap) : Prop :=
  globals h' = globals h ∧ ∀ l, is_Some (lists h !! l) -> lists h' !! l = lists h !! l.

(** The test of the list comprehension against [Composition(formula) = c]. *)
Definition matches {P : Pymatgen} (c : Comp) (e : ComputedEntry) : bool :=
  bool_decide (reduced_formula (composition e) = reduced_formula c).

(** ** Sample data

    A small stand-in for pymatgen to run the definitions: a composition is
    its reduced formula and its number of atoms, with the values pymatgen
    gives for the formulas below; any other formula raises here. *)

Definition toy_table : gmap string (string * float) :=
  {["CaO" := ("CaO", 2%float); "Ca2O2" := ("CaO", 4%float); "Ca3O3" := ("CaO", 6%float);
    "CO2" := ("CO2", 3%float); "CaCO3" := ("CaCO3", 5%float); "CaC2" := ("CaC2", 3%float)]}.

Definition toy_Composition (formula : string) : result (string * float) :=
  match toy_table !! formula with
  | Some c => Ok c
  | None => Err (PyExc "ValueError" formula)
  end.

Definition toy_pymatgen : Pymatgen := {|
  Comp := string * float;
  Composition := toy_Composition;
  reduced_formula := fst;
  num_atoms := snd
|}.

Abbreviation toy_entry := (@ComputedEntry toy_pymatgen).

Definition toy_mk (rf : string) (n e : float) : toy_entry := @mkEntry toy_pymatgen (rf, n) e.

(** A small Ca-C-O repository in the notebook's order. *)
Definition e_CaO_a : toy_entry := toy_mk "CaO" 2%float (-12)%float.
Definition e_CaO_b : toy_entry := toy_mk "CaO" 4%float (-26)%float.
Definition e_CO2 : toy_entry := toy_mk "CO2" 3%float (-23)%float.
Definition e_CaCO3 : toy_entry := toy_mk "CaCO3" 5%float (-38)%float.
Definition e_CaO_c : toy_entry := toy_mk "CaO" 2%float (-6.5)%float.
Definition sample_entries : list toy_entry := [e_CaO_a; e_CO2; e_CaO_b; e_CaCO3; e_CaO_c].

(** A CaO entry below every CaO entry of [sample_entries]. *)
Definition e_CaO_low : toy_entry := toy_mk "CaO" 2%float (-14)%float.

(** Two CaO entries whose float energies per atom are equal: 1.0 / 6.0 and
    0.3333333333333333 / 2.0 are both 0.16666666666666666. *)
Definition e_Ca3O3 : toy_entry := toy_mk "CaO" 6%float 1%float.
Definition e_CaO_third : toy_entry := toy_mk "CaO" 2%float 0x1.5555555555555p-2%float.
Definition tie_entries : list toy_entry := [e_Ca3O3; e_CaO_third].

Definition sample_heap : @heap toy_pymatgen :=
  mkHeap {["all_entries" := 1%positive]} {[1%positive := sample_entries]} 2%positive.

(** [d["structure"]] does not raise. *)
Definition has_structure {V} (d : gmap string V) : Prop := is_Some (d !! "structure").

(** Two enumerated structures, as dicts whose structures are given by their
    CIF text, and a dict without a structure. *)
Definition sample_ss : list (gmap string string) :=
  [{["structure" := "cif of CuAu"; "energy" := "-3.1"]};
   {["structure" := "cif of Cu2Au2"]}].

Definition sample_no_structure : gmap string string := {["energy" := "-2.9"]}.

(** ** Lemmas on the embedding *)

Example get_CaO : get_most_stable_entry sample_entries "CaO" = Ok e_CaO_b.
Proof. vm_compute. reflexivity. Qed.

Example get_Ca2O2 : get_most_stable_entry sample_entries "Ca2O2" = Ok e_CaO_b.
Proof. vm_compute. reflexivity. Qed.

Example get_missing : get_most_stable_entry sample_entries "CaC2" = Err IndexError.
Proof. vm_compute. reflexivity. Qed.

(** With equal float keys the stable sort keeps the repository order. *)
Example get_tie : get_most_stable_entry tie_entries "CaO" = Ok e_Ca3O3.
Proof. vm_compute. reflexivity. Qed.

Example get_CaO_heap :
  get_most_stable_entry_heap "CaO" sample_heap =
  (Ok e_CaO_b,
   mkHeap {["all_entries" := 1%positive]}
     {[1%positive := sample_entries; 2%positive := [e_CaO_a; e_CaO_b; e_CaO_c];
       3%positive := [e_CaO_b; e_CaO_a; e_CaO_c]]} 4%positive).
Proof. vm_compute. reflexivity. Qed.

Example notebook_lookups_sample :
  (notebook_lookups sample_heap).1 = Ok [e_CaO_b; e_CO2; e_CaCO3].
Proof. vm_compute. reflexivity. Qed.

Example write_all_cifs_sample :
  write_all_cifs id sample_ss ∅ =
  (Ok (), {["CuAu_0.cif" := "cif of CuAu"; "CuAu_1.cif" := "cif of Cu2Au2"]}).
Proof. vm_compute. reflexivity. Qed.

Example write_all_cifs_sample_missing :
  write_all_cifs id (sample_ss ++ sample_no_structure :: sample_ss) ∅ =
  (Err (KeyError "structure"),
   {["CuAu_0.cif" := "cif of CuAu"; "CuAu_1.cif" := "cif of Cu2Au2"]}).
Proof. vm_compute. reflexivity. Qed.

Close Scope string_scope.

Ltac unfold_result := unfold mbind, result_bind, mret, result_ret in *.



(** *** Strict weak orders on a list of keys *)

Lemma swo_onb_spec {K} (lt : K -> K -> bool) (ks : list K) :
  swo_onb lt ks = true -> swo_on lt ks.
Proof.
  unfold swo_onb, swo_on. intros H a b c Ha Hb Hc.
  apply list_elem_of_In in Ha, Hb, Hc.
  rewrite forallb_forall in H. specialize (H a Ha).
  rewrite forallb_forall in H. specialize (H b Hb).
  rewrite forallb_forall in H. specialize (H c Hc).
  destruct (lt a a), (lt a b), (lt b c), (lt a c); simpl in H; try discriminate H;
    repeat split; intros; congruence.
Qed.

Lemma swo_on_sub {K} (lt : K -> K -> bool) (ks ks' : list K) :
  (∀ k, k ∈ ks' -> k ∈ ks) -> swo_on lt ks -> swo_on lt ks'.
Proof. intros Hsub Hs a b c Ha Hb Hc. apply Hs; by apply Hsub. Qed.

Section Swo.
Context {K : Type} (lt : K -> K -> bool) (ks : list K) (Hs : swo_on lt ks).

Lemma swo_irrefl a : a ∈ ks -> lt a a = false.
Proof. intros Ha. by destruct (Hs a a a Ha Ha Ha) as [? _]. Qed.

Lemma swo_trans a b c : a ∈ ks -> b ∈ ks -> c ∈ ks ->
  lt a b = true -> lt b c = true -> lt a c = true.
Proof. intros Ha Hb Hc. by destruct (Hs a b c Ha Hb Hc) as (_ & ? & _). Qed.

Lemma swo_ntrans a b c : a ∈ ks -> b ∈ ks -> c ∈ ks ->
  lt a b = false -> lt b c = false -> lt a c = false.
Proof. intros Ha Hb Hc. by destruct (Hs a b c Ha Hb Hc) as (_ & _ & ?). Qed.

Lemma swo_asym a b : a ∈ ks -> b ∈ ks -> lt a b = true -> lt b a = false.
Proof.
  intros Ha Hb Hab. destruct (lt b a) eqn:Hba; [|done]. exfalso.
  pose proof (swo_trans a b a Ha Hb Ha Hab Hba) as Ht.
  by rewrite swo_irrefl in Ht.
Qed.
End Swo.

(** *** The stable sort *)

Lemma insert_keyed_cons {K A} lt (p : K * A) l : ∃ q r, insert_keyed lt p l = q :: r.
Proof. destruct l as [|q t]; simpl; [eauto|]. destruct (lt _ _); eauto. Qed.

Lemma sort_keyed_nil {K A} lt (l : list (K * A)) : sort_keyed lt l = [] -> l = [].
Proof.
  destruct l as [|p t]; simpl; [done|].
  destruct (insert_keyed_cons lt p (sort_keyed lt t)) as (q & r & ->). done.
Qed.

Lemma insert_keyed_Forall {K A} lt (Q : K * A -> Prop) p l :
  Q p -> Forall Q l -> Forall Q (insert_keyed lt p l).
Proof.
  intros Hp Hl. induction Hl as [|q t Hq Ht IH]; simpl; [by constructor|].
  destruct (lt _ _); by repeat constructor.
Qed.

Lemma sort_keyed_Forall {K A} lt (Q : K * A -> Prop) l :
  Forall Q l -> Forall Q (sort_keyed lt l).
Proof. induction 1; simpl; [constructor|]. by apply insert_keyed_Forall. Qed.

Lemma insert_keyed_perm {K A} lt (p : K * A) l : insert_keyed lt p l ≡ₚ p :: l.
Proof.
  induction l as [|q t IH]; simpl; [done|]. destruct (lt _ _); [|done].
  rewrite IH. apply Permutation_swap.
Qed.

Lemma sort_keyed_perm {K A} lt (l : list (K * A)) : sort_keyed lt l ≡ₚ l.
Proof. induction l as [|p t IH]; simpl; [done|]. by rewrite insert_keyed_perm, IH. Qed.

Lemma snd_keyed {K A} (f : A -> K) (l : list A) : snd <$> keyed f l = l.
Proof. unfold keyed. induction l as [|x t IH]; [done|]. by rewrite !fmap_cons, IH. Qed.

Lemma keyed_Forall_key {K A} (f : A -> K) l :
  Forall (fun p : K * A => p.1 = f p.2) (keyed f l).
Proof. induction l; simpl; by constructor. Qed.

Lemma keyed_Forall_in {K A} (f : A -> K) (l db : list A) :
  (∀ x, x ∈ l -> x ∈ db) -> Forall (fun p : K * A => p.1 ∈ f <$> db) (keyed f l).
Proof.
  intros Hsub. apply Forall_forall. intros [k x] Hp. unfold keyed in Hp.
  apply list_elem_of_fmap in Hp as (y & Hy & Hyl). injection Hy as -> ->.
  simpl. apply list_elem_of_fmap_2. by apply Hsub.
Qed.

Lemma filter_keyed {K A} (f : A -> K) (g : K -> bool) (l : list A) :
  snd <$> List.filter (fun p : K * A => g p.1) (keyed f l) = List.filter (fun x => g (f x)) l.
Proof.
  unfold keyed. induction l as [|x t IH]; [done|].
  cbn [List.filter fst snd fmap list_fmap].
  destruct (g (f x)); cbn [fmap list_fmap snd]; by rewrite IH.
Qed.

Lemma filter_snd_keyed {K A} (f : A -> K) (g : K -> bool) (l : list (K * A)) :
  Forall (fun p : K * A => p.1 = f p.2) l ->
  List.filter (fun x => g (f x)) (snd <$> l) = snd <$> List.filter (fun p : K * A => g p.1) l.
Proof.
  induction 1 as [|[q x] t Hp Ht IH]; [done|]. simpl in Hp. subst q.
  cbn [List.filter fst snd fmap list_fmap].
  destruct (g (f x)); cbn [fmap list_fmap snd]; by rewrite IH.
Qed.

Lemma Sorted_snd {K A} (lt : K -> K -> bool) (f : A -> K) (l : list (K * A)) :
  Forall (fun p : K * A => p.1 = f p.2) l ->
  Sorted (fun x y : K * A => not_after lt x.1 y.1) l ->
  Sorted (fun a b => not_after lt (f a) (f b)) (snd <$> l).
Proof.
  induction l as [|p t IH]; intros Hf Hs; simpl; [constructor|].
  apply Forall_cons in Hf as [Hp Ht]. apply Sorted_inv in Hs as [Hst Hh].
  constructor; [by apply IH|]. destruct t as [|q t']; simpl; constructor.
  apply HdRel_inv in Hh. apply Forall_cons in Ht as [Hq _].
  by rewrite <- Hp, <- Hq.
Qed.

Section SortedByKey.
Context {K A : Type} (lt : K -> K -> bool) (ks : list K) (Hs : swo_on lt ks).

Lemma insert_keyed_sorted (p : K * A) (l : list (K * A)) :
  p.1 ∈ ks -> Forall (fun q : K * A => q.1 ∈ ks) l ->
  Sorted (fun x y : K * A => not_after lt x.1 y.1) l ->
  Sorted (fun x y : K * A => not_after lt x.1 y.1) (insert_keyed lt p l).
Proof.
  intros Hp. induction l as [|q t IH]; intros Hl Hsort; simpl; [by repeat constructor|].
  apply Forall_cons in Hl as [Hq Ht].
  destruct (lt q.1 p.1) eqn:Hqp.
  - apply Sorted_inv in Hsort as [Hst Hh]. constructor; [by apply IH|].
    destruct t as [|q' t']; simpl.
    + constructor. unfold not_after. by apply (swo_asym lt ks Hs).
    + apply HdRel_inv in Hh. destruct (lt q'.1 p.1); constructor; [done|].
      unfold not_after. by apply (swo_asym lt ks Hs).
  - constructor; [done|]. constructor. done.
Qed.

Lemma sort_keyed_sorted (l : list (K * A)) :
  Forall (fun q : K * A => q.1 ∈ ks) l ->
  Sorted (fun x y : K * A => not_after lt x.1 y.1) (sort_keyed lt l).
Proof.
  induction 1 as [|p t Hp Ht IH]; simpl; [constructor|].
  apply insert_keyed_sorted; [done| |done]. by apply sort_keyed_Forall.
Qed.

(** The head of the stable sort is the first element of minimal key. *)
Lemma sort_keyed_head (f : A -> K) (l : list A) k x r :
  Forall (fun y => f y ∈ ks) l ->
  sort_keyed lt (keyed f l) = (k, x) :: r ->
  k = f x ∧ ∃ pre post, l = pre ++ x :: post ∧
    (∀ y, y ∈ pre -> lt (f x) (f y) = true) ∧ (∀ y, y ∈ post -> lt (f y) (f x) = false).
Proof.
  intros Hl. revert k x r. induction Hl as [|a t Ha Ht IH]; intros k x r Hsk; [done|].
  cbn [keyed fmap list_fmap sort_keyed] in Hsk. fold (keyed f t) in Hsk.
  destruct (sort_keyed lt (keyed f t)) as [|[k' y] r'] eqn:Hst.
  - apply sort_keyed_nil in Hst. destruct t; [|done]. simpl in Hsk.
    injection Hsk as <- <- <-. split; [done|]. exists [], [].
    split; [done|]. split; intros z Hz; by apply elem_of_nil in Hz.
  - destruct (IH _ _ _ eq_refl) as (-> & pre & post & -> & Hpre & Hpost).
    rewrite Forall_forall in Ht.
    cbn [insert_keyed fst] in Hsk. destruct (lt (f y) (f a)) eqn:Hya.
    + injection Hsk as <- <- _. split; [done|].
      exists (a :: pre), post. split; [done|]. split; [|done].
      intros z Hz. apply elem_of_cons in Hz as [->|Hz]; [done|by apply Hpre].
    + injection Hsk as <- <- _. split; [done|].
      exists [], (pre ++ y :: post). split; [done|].
      split; [intros z Hz; by apply elem_of_nil in Hz|].
      assert (Hy : f y ∈ ks) by (apply Ht; apply elem_of_app; right; apply elem_of_cons; by left).
      intros z Hz. assert (Hzk : f z ∈ ks) by by apply Ht.
      apply elem_of_app in Hz as [Hz|Hz].
      * destruct (lt (f z) (f a)) eqn:Hza; [|done].
        rewrite <- Hya. symmetry. apply (swo_trans lt ks Hs (f y) (f z) (f a)); auto.
      * apply elem_of_cons in Hz as [->|Hz]; [done|].
        apply (swo_ntrans lt ks Hs (f z) (f y) (f a)); auto.
Qed.

Lemma insert_keyed_filter (k : K) (p : K * A) (l : list (K * A)) :
  k ∈ ks -> p.1 ∈ ks -> Forall (fun q : K * A => q.1 ∈ ks) l ->
  List.filter (fun q : K * A => key_tie lt k q.1) (insert_keyed lt p l) =
  List.filter (fun q : K * A => key_tie lt k q.1) (p :: l).
Proof.
  intros Hk Hp. induction l as [|q t IH]; intros Hl; simpl; [done|].
  apply Forall_cons in Hl as [Hq Ht].
  destruct (lt q.1 p.1) eqn:Hqp; [|done]. simpl. rewrite IH by done. simpl.
  unfold key_tie. destruct (lt q.1 k) eqn:Hqk, (lt k q.1), (lt p.1 k), (lt k p.1) eqn:Hkp;
    simpl; try done.
  exfalso. pose proof (swo_ntrans lt ks Hs q.1 k p.1 Hq Hk Hp Hqk Hkp). congruence.
Qed.

Lemma sort_keyed_filter (k : K) (l : list (K * A)) :
  k ∈ ks -> Forall (fun q : K * A => q.1 ∈ ks) l ->
  List.filter (fun q : K * A => key_tie lt k q.1) (sort_keyed lt l) =
  List.filter (fun q : K * A => key_tie lt k q.1) l.
Proof.
  intros Hk. induction 1 as [|p t Hp Ht IH]; simpl; [done|].
  rewrite insert_keyed_filter; [|done|done|by apply sort_keyed_Forall].
  simpl. by rewrite IH.
Qed.
End SortedByKey.

(** At most one element of a list is preceded only by elements of greater
    key and followed only by elements of key not smaller. *)
Lemma first_min_unique {K A} (lt : K -> K -> bool) (f : A -> K) (pre post pre' post' : list A) x x' :
  pre ++ x :: post = pre' ++ x' :: post' ->
  (∀ y, y ∈ pre -> lt (f x) (f y) = true) -> (∀ y, y ∈ post -> lt (f y) (f x) = false) ->
  (∀ y, y ∈ pre' -> lt (f x') (f y) = true) -> (∀ y, y ∈ post' -> lt (f y) (f x') = false) ->
  x = x'.
Proof.
  revert pre'. induction pre as [|y pre IH]; intros [|y' pre'] Heq Hpre Hpost Hpre' Hpost';
    cbn [app] in Heq; injection Heq as Hh Ht.
  - done.
  - subst y'. exfalso.
    assert (H1 : lt (f x') (f x) = true) by (apply Hpre'; apply elem_of_cons; by left).
    assert (H2 : lt (f x') (f x) = false)
      by (apply Hpost; rewrite Ht; apply elem_of_app; right; apply elem_of_cons; by left).
    congruence.
  - subst y. exfalso.
    assert (H1 : lt (f x) (f x') = true) by (apply Hpre; apply elem_of_cons; by left).
    assert (H2 : lt (f x) (f x') = false)
      by (apply Hpost'; rewrite <- Ht; apply elem_of_app; right; apply elem_of_cons; by left).
    congruence.
  - apply (IH pre' Ht).
    + intros z Hz. apply Hpre. apply elem_of_cons. by right.
    + done.
    + intros z Hz. apply Hpre'. apply elem_of_cons. by right.
    + done.
Qed.

Lemma filter_app_list {A} (p : A -> bool) (l1 l2 : list A) :
  List.filter p (l1 ++ l2) = List.filter p l1 ++ List.filter p l2.
Proof.
  induction l1 as [|x t IH]; [done|]. cbn [List.filter app].
  destruct (p x); by rewrite IH.
Qed.

Lemma filter_none {A} (p : A -> bool) (l : list A) :
  Forall (fun x => p x = false) l -> List.filter p l = [].
Proof. induction 1 as [|x t Hx _ IH]; [done|]. cbn [List.filter]. by rewrite Hx. Qed.

(** *** Energies per atom and the list comprehension *)

Lemma eval_keys_epa {P : Pymatgen} (l : list ComputedEntry) ks :
  eval_keys energy_per_atom l = Ok ks ->
  ks = keyed epa l ∧ Forall (fun e => has_atoms e = true) l.
Proof.
  revert ks. induction l as [|e t IH]; intros ks H; simpl in H; unfold_result.
  - injection H as <-. split; [done|constructor].
  - destruct (energy_per_atom e) as [k|] eqn:Hk; [|done].
    destruct (eval_keys energy_per_atom t) as [ks'|] eqn:Ht; [|done].
    injection H as <-. destruct (IH _ eq_refl) as [-> Hf].
    unfold energy_per_atom in Hk. cbv zeta in Hk.
    destruct (PrimFloat.eqb _ 0%float) eqn:Hz; [done|]. injection Hk as <-.
    split; [done|]. constructor; [|done]. unfold has_atoms, epa. by rewrite Hz.
Qed.

Lemma eval_keys_epa_ok {P : Pymatgen} (l : list ComputedEntry) :
  Forall (fun e => has_atoms e = true) l ->
  eval_keys energy_per_atom l = Ok (keyed epa l).
Proof.
  induction 1 as [|e t He Ht IH]; cbn [eval_keys]; unfold_result; [done|].
  rewrite IH. unfold energy_per_atom. cbv zeta. unfold has_atoms in He.
  destruct (PrimFloat.eqb _ 0%float); done.
Qed.

Lemma eval_keys_err {P : Pymatgen} (l : list ComputedEntry) err :
  eval_keys energy_per_atom l = Err err -> err = ZeroDivisionError.
Proof.
  induction l as [|e t IH]; cbn [eval_keys]; unfold_result; [done|].
  destruct (energy_per_atom e) as [k|] eqn:Hk.
  - destruct (eval_keys energy_per_atom t); [done|]. intros [= ->]. by apply IH.
  - unfold energy_per_atom in Hk. cbv zeta in Hk.
    destruct (PrimFloat.eqb _ 0%float); [|done]. injection Hk as <-. by intros [= ->].
Qed.

Lemma relevant_entries_none {P : Pymatgen} all_entries formula (c : Comp) :
  Composition formula = Ok c ->
  Forall (fun e => reduced_formula (composition e) ≠ reduced_formula c) all_entries ->
  relevant_entries all_entries formula = Ok [].
Proof.
  intros Hc. induction 1 as [|e t He Ht IH]; simpl; unfold_result; [done|].
  rewrite Hc, IH. rewrite bool_decide_eq_false_2 by done. done.
Qed.

Lemma relevant_entries_reduced {P : Pymatgen} all_entries f1 f2 (c1 c2 : Comp) :
  Composition f1 = Ok c1 -> Composition f2 = Ok c2 ->
  reduced_formula c1 = reduced_formula c2 ->
  relevant_entries all_entries f1 = relevant_entries all_entries f2.
Proof.
  intros H1 H2 Hr. induction all_entries as [|e t IH]; simpl; unfold_result; [done|].
  rewrite H1, H2, Hr, IH. done.
Qed.

Lemma relevant_entries_filter {P : Pymatgen} all_entries formula (c : Comp) :
  Composition formula = Ok c ->
  relevant_entries all_entries formula = Ok (List.filter (matches c) all_entries).
Proof.
  intros Hc. induction all_entries as [|e t IH]; simpl; unfold_result; [done|].
  rewrite Hc, IH. unfold matches. by destruct (bool_decide _).
Qed.

Lemma relevant_entries_err {P : Pymatgen} all_entries formula err :
  relevant_entries all_entries formula = Err err -> Composition formula = Err err.
Proof.
  induction all_entries as [|e t IH]; simpl; unfold_result; [done|].
  destruct (Composition formula) as [c|e'] eqn:Hc; [|intros H; simpl in H; congruence].
  destruct (relevant_entries t formula) as [|e'']; [done|]. intros [= ->].
  specialize (IH eq_refl). congruence.
Qed.

Lemma relevant_entries_in {P : Pymatgen} all_entries formula relevant e :
  relevant_entries all_entries formula = Ok relevant -> e ∈ relevant ->
  e ∈ all_entries ∧ ∃ c, Composition formula = Ok c ∧
    reduced_formula (composition e) = reduced_formula c.
Proof.
  revert relevant. induction all_entries as [|x t IH]; intros relevant Hr He;
    simpl in Hr; unfold_result.
  - injection Hr as <-. by apply elem_of_nil in He.
  - destruct (Composition formula) as [c|]; [|done].
    destruct (relevant_entries t formula) as [rest|] eqn:Ht; [|done].
    injection Hr as <-. case_bool_decide as Hm.
    + apply elem_of_cons in He as [->|He].
      * split; [apply elem_of_cons; by left|eauto].
      * destruct (IH _ eq_refl He) as [Hin Hc]. split; [apply elem_of_cons; by right|done].
    + destruct (IH _ eq_refl He) as [Hin Hc]. split; [apply elem_of_cons; by right|done].
Qed.

Lemma relevant_entries_incl {P : Pymatgen} all_entries formula relevant :
  relevant_entries all_entries formula = Ok relevant ->
  ∀ e, e ∈ relevant -> e ∈ all_entries.
Proof. intros Hr e He. by destruct (relevant_entries_in _ _ _ e Hr He). Qed.

Lemma filter_incl {A} (p : A -> bool) (l : list A) x : x ∈ List.filter p l -> x ∈ l.
Proof. intros Hx. apply list_elem_of_In, filter_In in Hx as [Hx _]. by apply list_elem_of_In. Qed.

Lemma keys_incl {K A} (f : A -> K) (l l' : list A) :
  (∀ x, x ∈ l -> x ∈ l') -> ∀ k, k ∈ f <$> l -> k ∈ f <$> l'.
Proof.
  intros Hsub k Hk. apply list_elem_of_fmap in Hk as (x & -> & Hx).
  apply list_elem_of_fmap_2. by apply Hsub.
Qed.

Lemma entries_for_inv {P : Pymatgen} all_entries formula l :
  entries_for all_entries formula = Ok l ->
  ∃ relevant, relevant_entries all_entries formula = Ok relevant ∧
    Forall (fun e => has_atoms e = true) relevant ∧
    l = snd <$> sort_keyed PrimFloat.ltb (keyed epa relevant).
Proof.
  unfold entries_for, sorted. unfold_result.
  destruct (relevant_entries _ _) as [rel|]; [|done].
  destruct (eval_keys _ _) as [ks|] eqn:Hk; [|done]. intros [= <-].
  apply eval_keys_epa in Hk as [-> Hnz]. eauto.
Qed.

Lemma entries_for_ok {P : Pymatgen} all_entries formula relevant :
  relevant_entries all_entries formula = Ok relevant ->
  Forall (fun e => has_atoms e = true) relevant ->
  entries_for all_entries formula =
    Ok (snd <$> sort_keyed PrimFloat.ltb (keyed epa relevant)).
Proof.
  intros Hr Hnz. unfold entries_for, sorted. unfold_result.
  rewrite Hr, (eval_keys_epa_ok _ Hnz). done.
Qed.

(** [entries_for] lists the relevant entries so that no entry has a
    strictly smaller energy per atom than an entry before it. *)
Lemma entries_for_sorted {P : Pymatgen} all_entries formula l :
  swo_on PrimFloat.ltb (epa <$> all_entries) ->
  entries_for all_entries formula = Ok l ->
  Sorted (fun a b => not_after PrimFloat.ltb (epa a) (epa b)) l.
Proof.
  intros Hs Hl. apply entries_for_inv in Hl as (rel & Hr & _ & ->).
  apply Sorted_snd.
  - apply sort_keyed_Forall, keyed_Forall_key.
  - apply (sort_keyed_sorted PrimFloat.ltb (epa <$> all_entries) Hs).
    apply keyed_Forall_in. by apply (relevant_entries_incl _ _ _ Hr).
Qed.

Lemma entries_for_perm_aux {P : Pymatgen} all_entries formula relevant l :
  relevant_entries all_entries formula = Ok relevant ->
  entries_for all_entries formula = Ok l -> l ≡ₚ relevant.
Proof.
  intros Hr Hl. apply entries_for_inv in Hl as (rel & Hr' & _ & ->).
  rewrite Hr in Hr'. injection Hr' as <-.
  rewrite sort_keyed_perm. by rewrite snd_keyed.
Qed.

Lemma get_most_stable_entry_first_min_aux {P : Pymatgen} all_entries formula (c : Comp) pre e post :
  swo_on PrimFloat.ltb (epa <$> (pre ++ e :: post)) ->
  Composition formula = Ok c ->
  List.filter (matches c) all_entries = pre ++ e :: post ->
  Forall (fun x => has_atoms x = true) (pre ++ e :: post) ->
  (∀ y, y ∈ pre -> PrimFloat.ltb (epa e) (epa y) = true) ->
  (∀ y, y ∈ post -> PrimFloat.ltb (epa y) (epa e) = false) ->
  get_most_stable_entry all_entries formula = Ok e.
Proof.
  intros Hs Hc Hf Hnz Hpre Hpost.
  pose proof (relevant_entries_filter all_entries formula c Hc) as Hr. rewrite Hf in Hr.
  unfold get_most_stable_entry. unfold_result. rewrite (entries_for_ok _ _ _ Hr Hnz).
  destruct (sort_keyed PrimFloat.ltb (keyed epa (pre ++ e :: post))) as [|[k x] r] eqn:Hsk.
  { apply sort_keyed_nil in Hsk. by destruct pre. }
  assert (Hk : Forall (fun y => epa y ∈ epa <$> (pre ++ e :: post)) (pre ++ e :: post)).
  { apply Forall_forall. intros y Hy. by apply list_elem_of_fmap_2. }
  destruct (sort_keyed_head PrimFloat.ltb _ Hs epa _ k x r Hk Hsk)
    as (_ & pre' & post' & Heq & Hpre' & Hpost').
  unfold py_getitem. cbn [fmap list_fmap lookup list_lookup snd]. f_equal.
  symmetry. by apply (first_min_unique PrimFloat.ltb epa pre post pre' post').
Qed.

Lemma get_most_stable_entry_split {P : Pymatgen} all_entries formula (c : Comp) e :
  swo_on PrimFloat.ltb (epa <$> all_entries) ->
  Composition formula = Ok c ->
  get_most_stable_entry all_entries formula = Ok e ->
  ∃ pre post, List.filter (matches c) all_entries = pre ++ e :: post ∧
    Forall (fun x => has_atoms x = true) (pre ++ e :: post) ∧
    (∀ y, y ∈ pre -> PrimFloat.ltb (epa e) (epa y) = true) ∧
    (∀ y, y ∈ post -> PrimFloat.ltb (epa y) (epa e) = false).
Proof.
  intros Hs Hc H. unfold get_most_stable_entry in H. unfold_result.
  destruct (entries_for _ _) as [l|] eqn:Hl; [|done].
  apply entries_for_inv in Hl as (rel & Hr & Hnz & ->).
  pose proof (relevant_entries_incl _ _ _ Hr) as Hsub.
  rewrite (relevant_entries_filter _ _ _ Hc) in Hr. injection Hr as Hr.
  destruct (sort_keyed PrimFloat.ltb (keyed epa rel)) as [|[k x] r] eqn:Hsk; [done|].
  unfold py_getitem in H. cbn [fmap list_fmap lookup list_lookup snd] in H. injection H as <-.
  assert (Hk : Forall (fun y => epa y ∈ epa <$> all_entries) rel).
  { apply Forall_forall. intros y Hy. apply list_elem_of_fmap_2. by apply Hsub. }
  destruct (sort_keyed_head PrimFloat.ltb _ Hs epa rel k x r Hk Hsk)
    as (_ & pre & post & -> & Hpre & Hpost).
  exists pre, post. by rewrite Hr.
Qed.

(** *** The heap *)

Lemma heap_extends_refl {P : Pymatgen} (h : heap) : heap_extends h h.
Proof. split; done. Qed.

Lemma heap_extends_trans {P : Pymatgen} (h1 h2 h3 : heap) :
  heap_extends h1 h2 -> heap_extends h2 h3 -> heap_extends h1 h3.
Proof.
  intros [G12 L12] [G23 L23]. split; [congruence|].
  intros l Hl. rewrite L23; [by apply L12|]. by rewrite L12.
Qed.

Lemma alloc_list_spec {P : Pymatgen} (h : heap) xs :
  wf_heap h ->
  let h' := snd (alloc_list xs h) in
  heap_extends h h' ∧ wf_heap h' ∧ lists h' !! next_loc h = Some xs.
Proof.
  intros Hwf. cbv zeta. unfold alloc_list, heap_extends, wf_heap. cbn [snd lists globals next_loc]. split; [split|split].
  - done.
  - intros l Hl. apply Hwf in Hl. rewrite lookup_insert_ne; [done|]. intros Heq. rewrite <- Heq in Hl. lia.
  - intros l Hl. cbn [lists next_loc] in *. destruct (decide (l = next_loc h)) as [->|Hne]; [lia|].
    rewrite lookup_insert_ne in Hl by congruence. apply Hwf in Hl. lia.
  - by rewrite lookup_insert_eq.
Qed.

Lemma get_most_stable_entry_heap_spec {P : Pymatgen} (formula : string) (h : heap) (a : loc)
    (xs : list ComputedEntry) :
  wf_heap h ->
  globals h !! "all_entries" = Some a ->
  lists h !! a = Some xs ->
  (get_most_stable_entry_heap formula h).1 = get_most_stable_entry xs formula ∧
  heap_extends h (get_most_stable_entry_heap formula h).2 ∧
  wf_heap (get_most_stable_entry_heap formula h).2.
Proof.
  intros Hwf Hg Ha.
  unfold get_most_stable_entry_heap, get_most_stable_entry, entries_for.
  unfold mbind, M_bind, load_global, read_list, lift. unfold_result.
  rewrite Hg, Ha.
  destruct (relevant_entries xs formula) as [rel|e];
    [|split; [done|split; [apply heap_extends_refl|done]]].
  destruct (alloc_list_spec h rel Hwf) as (Hext1 & Hwf1 & Hl1).
  unfold alloc_list in *. simpl in Hext1, Hwf1, Hl1 |- *. rewrite Hl1.
  destruct (sorted rel energy_per_atom) as [ys|e]; [|split; [done|split; [exact Hext1|exact Hwf1]]].
  destruct (alloc_list_spec _ ys Hwf1) as (Hext2 & Hwf2 & Hl2).
  unfold alloc_list in *. simpl in Hext2, Hwf2, Hl2 |- *. rewrite Hl2.
  split; [done|]. split; [|exact Hwf2]. eapply heap_extends_trans; [exact Hext1|exact Hext2].
Qed.

Lemma sample_heap_wf : wf_heap sample_heap.
Proof.
  intros l Hl. unfold sample_heap in *. simpl in *.
  destruct (decide (l = 1%positive)) as [->|Hne]; [lia|].
  rewrite lookup_singleton_ne in Hl by congruence. by destruct Hl.
Qed.

(** ** Claims on [get_most_stable_entry] *)

(** C1: when the energies per atom of [all_entries] are ordered by [<]
    (a strict weak order: no NaN) and [get_most_stable_entry] returns an
    entry, that entry is the first element of [entries_for] (the relevant
    entries sorted ascending by energy per atom), it is one of the entries
    whose reduced formula equals the requested one, no relevant entry has a
    strictly smaller energy per atom, and every relevant entry before it in
    the repository has a strictly larger one (ties go to the earliest).
    When at least one entry matches (and every matching entry has atoms)
    an entry is returned. *)
Theorem get_most_stable_entry_lowest {P : Pymatgen} (all_entries : list ComputedEntry)
    (formula : string) :
  (swo_on PrimFloat.ltb (epa <$> all_entries) ->
   ∀ e, get_most_stable_entry all_entries formula = Ok e ->
     ∃ relevant pre post rest,
       relevant_entries all_entries formula = Ok relevant ∧
       entries_for all_entries formula = Ok (e :: rest) ∧
       Sorted (fun a b => not_after PrimFloat.ltb (epa a) (epa b)) (e :: rest) ∧
       relevant = pre ++ e :: post ∧
       (∀ e', e' ∈ relevant -> PrimFloat.ltb (epa e') (epa e) = false) ∧
       (∀ e', e' ∈ pre -> PrimFloat.ltb (epa e) (epa e') = true)) ∧
  (∀ relevant, relevant_entries all_entries formula = Ok relevant -> relevant ≠ [] ->
     Forall (fun e => has_atoms e = true) relevant ->
     ∃ e, get_most_stable_entry all_entries formula = Ok e).
Proof.
  split.
  - intros Hs e H. unfold get_most_stable_entry in H. unfold_result.
    destruct (entries_for _ _) as [l|] eqn:Hl; [|done].
    pose proof (entries_for_sorted _ _ _ Hs Hl) as Hsorted.
    apply entries_for_inv in Hl as Hinv. destruct Hinv as (rel & Hr & Hnz & ->).
    pose proof (relevant_entries_incl _ _ _ Hr) as Hsub.
    destruct (sort_keyed PrimFloat.ltb (keyed epa rel)) as [|[k x] r] eqn:Hsk; [done|].
    unfold py_getitem in H. simpl in H. injection H as <-.
    assert (Hk : Forall (fun y => epa y ∈ epa <$> all_entries) rel).
    { apply Forall_forall. intros y Hy. apply list_elem_of_fmap_2. by apply Hsub. }
    destruct (sort_keyed_head PrimFloat.ltb _ Hs epa rel k x r Hk Hsk)
      as (-> & pre & post & -> & Hpre & Hpost).
    exists (pre ++ x :: post), pre, post, (snd <$> r).
    split; [done|]. split; [done|]. split; [done|]. split; [done|]. split; [|done].
    rewrite Forall_forall in Hk.
    intros e' He'. pose proof (Hk e' He') as He'k.
    assert (Hxk : epa x ∈ epa <$> all_entries)
      by (apply Hk; apply elem_of_app; right; apply elem_of_cons; by left).
    apply elem_of_app in He' as [He'|He'].
    + apply (swo_asym PrimFloat.ltb _ Hs); [done|done|by apply Hpre].
    + apply elem_of_cons in He' as [->|He']; [by apply (swo_irrefl PrimFloat.ltb _ Hs)|].
      by apply Hpost.
  - intros rel Hr Hne Hnz. unfold get_most_stable_entry. unfold_result.
    rewrite (entries_for_ok _ _ _ Hr Hnz).
    destruct (sort_keyed PrimFloat.ltb (keyed epa rel)) as [|[k x] r] eqn:Hsk.
    + apply sort_keyed_nil in Hsk. destruct rel; done.
    + by exists x.
Qed.

Lemma get_most_stable_entry_lowest_witness :
  (∃ e, get_most_stable_entry tie_entries "CaO" = Ok e) ∧
  (∃ relevant pre post rest,
     relevant_entries tie_entries "CaO" = Ok relevant ∧
     entries_for tie_entries "CaO" = Ok (e_Ca3O3 :: rest) ∧
     relevant = pre ++ e_Ca3O3 :: post ∧
     (∀ e', e' ∈ relevant -> PrimFloat.ltb (epa e') (epa e_Ca3O3) = false)).
Proof.
  split.
  - apply (proj2 (get_most_stable_entry_lowest tie_entries "CaO") [e_Ca3O3; e_CaO_third]).
    + vm_compute. reflexivity.
    + discriminate.
    + repeat (apply Forall_cons; split); [..|done]; vm_compute; reflexivity.
  - assert (H : get_most_stable_entry tie_entries "CaO" = Ok e_Ca3O3)
      by (vm_compute; reflexivity).
    assert (Hs : swo_on PrimFloat.ltb (epa <$> tie_entries))
      by (apply swo_onb_spec; vm_compute; reflexivity).
    destruct (proj1 (get_most_stable_entry_lowest tie_entries "CaO") Hs e_Ca3O3 H)
      as (relevant & pre & post & rest & Hr & He & _ & Hsplit & Hmin & _).
    exists relevant, pre, post, rest. auto.
Defined.

(** C2 (as the program behaves): for a formula that [Composition] parses,
    when no entry of the repository has its reduced formula, the
    comprehension is empty and [relevant_entries[0]] raises [IndexError]. *)
Theorem get_most_stable_entry_no_match {P : Pymatgen} (all_entries : list ComputedEntry)
    (formula : string) (c : Comp) :
  Composition formula = Ok c ->
  Forall (fun e => reduced_formula (composition e) ≠ reduced_formula c) all_entries ->
  get_most_stable_entry all_entries formula = Err IndexError.
Proof.
  intros Hc Hnone. unfold get_most_stable_entry. unfold_result.
  rewrite (entries_for_ok _ _ [] (relevant_entries_none _ _ _ Hc Hnone) (Forall_nil_2 _)).
  done.
Qed.

Lemma get_most_stable_entry_no_match_witness :
  get_most_stable_entry sample_entries "CaC2" = Err IndexError.
Proof.
  apply (get_most_stable_entry_no_match sample_entries "CaC2" ("CaC2", 3%float)).
  - vm_compute. reflexivity.
  - repeat constructor; vm_compute; discriminate.
Defined.

(** C2 as stated fails: with entries in the repository but none for CaC2,
    the call raises [IndexError], not [NotFoundError]. *)
Lemma get_most_stable_entry_no_match_not_NotFoundError :
  raised_type (get_most_stable_entry sample_entries "CaC2") = Some "IndexError" ∧
  raised_type (get_most_stable_entry sample_entries "CaC2") ≠ Some "NotFoundError".
Proof. vm_compute. split; [reflexivity|discriminate]. Qed.

(** C9: the result depends on the formula only through its reduced
    formula: two formulas that parse to compositions with the same reduced
    formula give the same result (entry or exception). *)
Theorem get_most_stable_entry_reduced {P : Pymatgen} (all_entries : list ComputedEntry)
    (f1 f2 : string) (c1 c2 : Comp) :
  Composition f1 = Ok c1 -> Composition f2 = Ok c2 ->
  reduced_formula c1 = reduced_formula c2 ->
  get_most_stable_entry all_entries f1 = get_most_stable_entry all_entries f2.
Proof.
  intros H1 H2 Hr. unfold get_most_stable_entry, entries_for.
  rewrite (relevant_entries_reduced all_entries f1 f2 c1 c2 H1 H2 Hr). done.
Qed.

Lemma get_most_stable_entry_reduced_witness :
  get_most_stable_entry sample_entries "CaO" = get_most_stable_entry sample_entries "Ca2O2".
Proof.
  apply (get_most_stable_entry_reduced sample_entries "CaO" "Ca2O2"
           ("CaO", 2%float) ("CaO", 4%float)).
  - vm_compute. reflexivity.
  - vm_compute. reflexivity.
  - vm_compute. reflexivity.
Defined.

(** C10: run against a well-formed heap in which the global [all_entries]
    is bound to the list object holding [xs], [get_most_stable_entry]
    returns what the pure model computes on [xs], leaves every global
    binding as it was, and leaves every existing list object, in particular
    the one of [all_entries], with the same contents in the same order. *)
Theorem get_most_stable_entry_frame {P : Pymatgen} (formula : string) (h : heap) (a : loc)
    (xs : list ComputedEntry) :
  wf_heap h ->
  globals h !! "all_entries" = Some a ->
  lists h !! a = Some xs ->
  (get_most_stable_entry_heap formula h).1 = get_most_stable_entry xs formula ∧
  heap_extends h (get_most_stable_entry_heap formula h).2 ∧
  globals (get_most_stable_entry_heap formula h).2 !! "all_entries" = Some a ∧
  lists (get_most_stable_entry_heap formula h).2 !! a = Some xs.
Proof.
  intros Hwf Hg Ha.
  destruct (get_most_stable_entry_heap_spec formula h a xs Hwf Hg Ha) as (Hr & [HG HL] & _).
  split; [done|]. split; [by split|].
  split; [by rewrite HG|]. rewrite HL; [done|by rewrite Ha].
Qed.

Lemma get_most_stable_entry_frame_witness :
  (get_most_stable_entry_heap "CaO" sample_heap).1 = get_most_stable_entry sample_entries "CaO" ∧
  lists (get_most_stable_entry_heap "CaO" sample_heap).2 !! 1%positive = Some sample_entries.
Proof.
  destruct (get_most_stable_entry_frame "CaO" sample_heap 1%positive sample_entries)
    as (Hr & _ & _ & Hl).
  - exact sample_heap_wf.
  - vm_compute. reflexivity.
  - vm_compute. reflexivity.
  - split; [exact Hr|exact Hl].
Defined.

(** ** Further properties of [get_most_stable_entry] *)

(** X1: an entry returned by [get_most_stable_entry] comes from
    [all_entries], the formula parses, and the entry's reduced formula is
    the reduced formula of the requested formula. *)
Theorem get_most_stable_entry_matches {P : Pymatgen} all_entries formula e :
  get_most_stable_entry all_entries formula = Ok e ->
  e ∈ all_entries ∧ ∃ c, Composition formula = Ok c ∧
    reduced_formula (composition e) = reduced_formula c.
Proof.
  unfold get_most_stable_entry. unfold_result.
  destruct (entries_for all_entries formula) as [l|] eqn:Hl; [|done].
  intros Hg. unfold py_getitem in Hg.
  destruct (l !! 0) as [x|] eqn:Hx; [|done]. injection Hg as <-.
  pose proof Hl as Hl'. apply entries_for_inv in Hl' as (rel & Hr & _ & _).
  eapply relevant_entries_in; [exact Hr|].
  rewrite <- (entries_for_perm_aux _ _ _ _ Hr Hl).
  by eapply list_elem_of_lookup_2.
Qed.

Lemma get_most_stable_entry_matches_witness :
  e_CaO_b ∈ sample_entries ∧ ∃ c, @Composition toy_pymatgen "Ca2O2" = Ok c ∧
    reduced_formula (composition e_CaO_b) = reduced_formula c.
Proof. apply get_most_stable_entry_matches. vm_compute. reflexivity. Defined.

(** X2: [get_most_stable_entry] raises only [IndexError] (no matching
    entry), [ZeroDivisionError] (a matching entry with no atoms) or the
    exception [Composition(formula)] raises. *)
Theorem get_most_stable_entry_errors {P : Pymatgen} all_entries formula err :
  get_most_stable_entry all_entries formula = Err err ->
  err = IndexError ∨ err = ZeroDivisionError ∨ Composition formula = Err err.
Proof.
  unfold get_most_stable_entry, entries_for, sorted. unfold_result.
  destruct (relevant_entries all_entries formula) as [rel|e] eqn:Hr.
  - destruct (eval_keys energy_per_atom rel) as [ks|e] eqn:Hk.
    + unfold py_getitem. destruct (_ !! 0); [done|]. intros [= <-]. by left.
    + intros [= <-]. right; left. by eapply eval_keys_err.
  - intros [= <-]. right; right. by eapply relevant_entries_err.
Qed.

Lemma get_most_stable_entry_errors_witness :
  IndexError = IndexError ∨ IndexError = ZeroDivisionError ∨
  @Composition toy_pymatgen "CaC2" = Err IndexError.
Proof. apply (get_most_stable_entry_errors sample_entries). vm_compute. reflexivity. Defined.

(** X4: the sort is stable. When the energies per atom of [all_entries]
    are ordered by [<] (no NaN), the relevant entries whose energy per atom
    ties with that of an entry [x] (neither is smaller) keep in
    [entries_for] the order they have in [all_entries]. *)
Theorem entries_for_stable {P : Pymatgen} all_entries formula relevant l x :
  swo_on PrimFloat.ltb (epa <$> all_entries) ->
  x ∈ all_entries ->
  relevant_entries all_entries formula = Ok relevant ->
  entries_for all_entries formula = Ok l ->
  List.filter (same_key (epa x)) l = List.filter (same_key (epa x)) relevant.
Proof.
  intros Hs Hx Hr Hl. apply entries_for_inv in Hl as (rel & Hr' & _ & ->).
  rewrite Hr in Hr'. injection Hr' as <-. unfold same_key.
  rewrite (filter_snd_keyed epa (key_tie PrimFloat.ltb (epa x))).
  - rewrite (sort_keyed_filter PrimFloat.ltb (epa <$> all_entries) Hs).
    + by rewrite filter_keyed.
    + by apply list_elem_of_fmap_2.
    + apply keyed_Forall_in. by apply (relevant_entries_incl _ _ _ Hr).
  - apply sort_keyed_Forall, keyed_Forall_key.
Qed.

Lemma entries_for_stable_witness :
  List.filter (same_key (epa e_CaO_third)) [e_Ca3O3; e_CaO_third] =
  List.filter (same_key (epa e_CaO_third)) [e_Ca3O3; e_CaO_third].
Proof.
  apply (entries_for_stable tie_entries "CaO").
  - apply swo_onb_spec. vm_compute. reflexivity.
  - apply elem_of_cons. right. apply elem_of_cons. by left.
  - vm_compute. reflexivity.
  - vm_compute. reflexivity.
Defined.

(** X5: [entries_for] is a permutation of the entries whose reduced formula
    matches: sorting neither drops nor duplicates an entry. *)
Theorem entries_for_perm {P : Pymatgen} all_entries formula relevant l :
  relevant_entries all_entries formula = Ok relevant ->
  entries_for all_entries formula = Ok l -> l ≡ₚ relevant.
Proof. apply entries_for_perm_aux. Qed.

Lemma entries_for_perm_witness :
  [e_CaO_b; e_CaO_a; e_CaO_c] ≡ₚ [e_CaO_a; e_CaO_b; e_CaO_c].
Proof.
  apply (entries_for_perm sample_entries "CaO"); vm_compute; reflexivity.
Defined.

(** X6: for a formula that parses, entries whose reduced formula differs
    from that of the formula do not change the result, wherever they sit
    in [all_entries]. *)
Theorem get_most_stable_entry_irrelevant {P : Pymatgen} db1 extra db2 formula (c : Comp) :
  Composition formula = Ok c ->
  Forall (fun e => reduced_formula (composition e) ≠ reduced_formula c) extra ->
  get_most_stable_entry (db1 ++ extra ++ db2) formula =
  get_most_stable_entry (db1 ++ db2) formula.
Proof.
  intros Hc Hx. unfold get_most_stable_entry, entries_for.
  rewrite !(relevant_entries_filter _ _ _ Hc), !filter_app_list.
  rewrite (filter_none (matches c) extra); [done|].
  eapply Forall_impl; [exact Hx|]. intros e He. unfold matches.
  by apply bool_decide_eq_false_2.
Qed.

Lemma get_most_stable_entry_irrelevant_witness :
  get_most_stable_entry ([e_CaO_a; e_CO2] ++ [e_CaCO3] ++ [e_CaO_b]) "CaO" =
  get_most_stable_entry ([e_CaO_a; e_CO2] ++ [e_CaO_b]) "CaO".
Proof.
  apply (get_most_stable_entry_irrelevant (P := toy_pymatgen) _ _ _ _ ("CaO", 2%float)).
  - vm_compute. reflexivity.
  - repeat constructor. vm_compute. discriminate.
Defined.

(** X7: when the energies per atom are ordered by [<] (no NaN), appending
    an entry of the requested formula, with atoms, whose energy per atom is
    strictly below that of every matching entry already present (all with
    atoms) makes it the result. *)
Theorem get_most_stable_entry_new_lowest {P : Pymatgen} all_entries formula (c : Comp) e :
  swo_on PrimFloat.ltb (epa <$> (all_entries ++ [e])) ->
  Composition formula = Ok c ->
  matches c e = true ->
  has_atoms e = true ->
  Forall (fun x => matches c x = true ->
            has_atoms x = true ∧ PrimFloat.ltb (epa e) (epa x) = true) all_entries ->
  get_most_stable_entry (all_entries ++ [e]) formula = Ok e.
Proof.
  intros Hs Hc He Hn Hdb. rewrite Forall_forall in Hdb.
  assert (Hf : List.filter (matches c) (all_entries ++ [e]) =
               List.filter (matches c) all_entries ++ e :: []).
  { rewrite filter_app_list. cbn [List.filter]. by rewrite He. }
  assert (Hs' : swo_on PrimFloat.ltb (epa <$> (List.filter (matches c) all_entries ++ [e])))
    by (rewrite <- Hf; apply (swo_on_sub _ _ _ (keys_incl _ _ _ (filter_incl _ _)) Hs)).
  apply (get_most_stable_entry_first_min_aux _ _ c _ e [] Hs' Hc Hf).
  - apply Forall_app. split; [|by constructor].
    apply Forall_forall. intros x Hx. apply list_elem_of_In, filter_In in Hx as [Hx Hm].
    apply (Hdb x); [by apply list_elem_of_In|done].
  - intros y Hy. apply list_elem_of_In, filter_In in Hy as [Hy Hm].
    apply (Hdb y); [by apply list_elem_of_In|done].
  - intros y Hy. by apply elem_of_nil in Hy.
Qed.

Lemma get_most_stable_entry_new_lowest_witness :
  get_most_stable_entry (sample_entries ++ [e_CaO_low]) "CaO" = Ok e_CaO_low.
Proof.
  apply (get_most_stable_entry_new_lowest (P := toy_pymatgen) _ _ ("CaO", 2%float)).
  - apply swo_onb_spec. vm_compute. reflexivity.
  - vm_compute. reflexivity.
  - vm_compute. reflexivity.
  - vm_compute. reflexivity.
  - unfold sample_entries. repeat (apply Forall_cons; split); [..|done].
    all: intros Hm; vm_compute in Hm; try discriminate.
    all: split; vm_compute; reflexivity.
Defined.

(** ** The three lookups of the notebook *)

(** X8: run one after the other on a well-formed heap in which
    [all_entries] is bound to the list object holding [xs], the calls
    [get_most_stable_entry(f)] for [f] in [formulas] return what the pure
    function returns on [xs] for each formula, stopping at the first
    exception, and leave every global and every existing list object as it
    was. The notebook's cell is the instance ["CaO"; "CO2"; "CaCO3"]. *)
Theorem lookup_all_pure {P : Pymatgen} (formulas : list string) (h : heap) (a : loc)
    (xs : list ComputedEntry) :
  wf_heap h ->
  globals h !! "all_entries" = Some a ->
  lists h !! a = Some xs ->
  (lookup_all formulas h).1 = get_all xs formulas ∧
  heap_extends h (lookup_all formulas h).2.
Proof.
  revert h. induction formulas as [|f t IH]; intros h Hwf Hg Ha.
  { split; [done|apply heap_extends_refl]. }
  cbn [lookup_all get_all]. unfold mbind at 1 2, M_bind. unfold_result.
  destruct (get_most_stable_entry_heap_spec f h a xs Hwf Hg Ha) as (Hr & Hext & Hwf1).
  destruct (get_most_stable_entry_heap f h) as [r h1]. cbn [fst snd] in Hr, Hext, Hwf1.
  subst r. destruct (get_most_stable_entry xs f) as [e|err]; [|split; [done|exact Hext]].
  destruct Hext as [HG HL].
  assert (Hg1 : globals h1 !! "all_entries" = Some a) by (by rewrite HG).
  assert (Ha1 : lists h1 !! a = Some xs) by (rewrite HL; [done|by rewrite Ha]).
  destruct (IH h1 Hwf1 Hg1 Ha1) as [Hr2 Hext2].
  destruct (lookup_all t h1) as [r2 h2]. cbn [fst snd] in Hr2, Hext2 |- *.
  subst r2. split.
  - by destruct (get_all xs t).
  - destruct (get_all xs t); cbn [fst snd]; (eapply heap_extends_trans; [split; [exact HG|exact HL]|exact Hext2]).
Qed.

Lemma lookup_all_pure_witness :
  (notebook_lookups sample_heap).1 = get_all sample_entries ["CaO"; "CO2"; "CaCO3"]%string ∧
  heap_extends sample_heap (notebook_lookups sample_heap).2.
Proof.
  apply (lookup_all_pure _ sample_heap 1%positive sample_entries).
  - exact sample_heap_wf.
  - vm_compute. reflexivity.
  - vm_compute. reflexivity.
Defined.

(** ** The first stable entry of least energy per atom *)

(** X12: the result is the first matching entry of least energy per atom.
    If the matching entries, in the order of [all_entries], are
    [pre ++ e :: post], their energies per atom are ordered by [<] (no
    NaN), none of them has zero atoms, every entry of [pre] has a strictly
    higher energy per atom than [e] and no entry of [post] a strictly lower
    one, then the call returns [e]. *)
Theorem get_most_stable_entry_first_min {P : Pymatgen} all_entries formula (c : Comp) pre e post :
  swo_on PrimFloat.ltb (epa <$> (pre ++ e :: post)) ->
  Composition formula = Ok c ->
  List.filter (matches c) all_entries = pre ++ e :: post ->
  Forall (fun x => has_atoms x = true) (pre ++ e :: post) ->
  (∀ y, y ∈ pre -> PrimFloat.ltb (epa e) (epa y) = true) ->
  (∀ y, y ∈ post -> PrimFloat.ltb (epa y) (epa e) = false) ->
  get_most_stable_entry all_entries formula = Ok e.
Proof. apply get_most_stable_entry_first_min_aux. Qed.

Lemma get_most_stable_entry_first_min_witness :
  get_most_stable_entry tie_entries "CaO" = Ok e_Ca3O3.
Proof.
  apply (get_most_stable_entry_first_min (P := toy_pymatgen) _ _ ("CaO", 2%float) [] e_Ca3O3 [e_CaO_third]).
  - apply swo_onb_spec. vm_compute. reflexivity.
  - vm_compute. reflexivity.
  - vm_compute. reflexivity.
  - repeat (apply Forall_cons; split); [..|done]; vm_compute; reflexivity.
  - intros y Hy. by apply elem_of_nil in Hy.
  - intros y Hy. apply elem_of_cons in Hy as [->|Hy]; [vm_compute; reflexivity|].
    by apply elem_of_nil in Hy.
Defined.

(** X13: ties go to the earlier entry. When the energies per atom of
    [db1 ++ db2] are ordered by [<] (no NaN), appending entries that are no
    more stable than the current result (every appended entry of the same
    reduced formula has atoms and an energy per atom not strictly below
    it) leaves the result unchanged. *)
Theorem get_most_stable_entry_append_no_better {P : Pymatgen} db1 db2 formula (c : Comp) e :
  swo_on PrimFloat.ltb (epa <$> (db1 ++ db2)) ->
  Composition formula = Ok c ->
  get_most_stable_entry db1 formula = Ok e ->
  Forall (fun x => matches c x = true ->
            has_atoms x = true ∧ PrimFloat.ltb (epa x) (epa e) = false) db2 ->
  get_most_stable_entry (db1 ++ db2) formula = Ok e.
Proof.
  intros Hs Hc He Hdb.
  assert (Hs1 : swo_on PrimFloat.ltb (epa <$> db1)).
  { apply (swo_on_sub _ _ _ (keys_incl _ _ _ (fun x Hx => proj2 (elem_of_app _ _ x) (or_introl Hx))) Hs). }
  destruct (get_most_stable_entry_split _ _ _ _ Hs1 Hc He) as (pre & post & Hf & Hnz & Hpre & Hpost).
  rewrite Forall_forall in Hdb.
  assert (Hf' : List.filter (matches c) (db1 ++ db2) =
                pre ++ e :: post ++ List.filter (matches c) db2)
    by (by rewrite filter_app_list, Hf, <- app_assoc).
  assert (Hs' : swo_on PrimFloat.ltb (epa <$> (pre ++ e :: post ++ List.filter (matches c) db2)))
    by (rewrite <- Hf'; apply (swo_on_sub _ _ _ (keys_incl _ _ _ (filter_incl _ _)) Hs)).
  apply (get_most_stable_entry_first_min_aux _ _ c pre e (post ++ List.filter (matches c) db2) Hs' Hc Hf').
  - rewrite app_comm_cons, app_assoc. apply Forall_app. split; [done|].
    apply Forall_forall. intros x Hx. apply list_elem_of_In, filter_In in Hx as [Hx Hm].
    apply (Hdb x); [by apply list_elem_of_In|done].
  - done.
  - intros y Hy. apply elem_of_app in Hy as [Hy|Hy]; [by apply Hpost|].
    apply list_elem_of_In, filter_In in Hy as [Hy Hm].
    apply (Hdb y); [by apply list_elem_of_In|done].
Qed.

Lemma get_most_stable_entry_append_no_better_witness :
  get_most_stable_entry ([e_Ca3O3] ++ [e_CaO_third]) "CaO" = Ok e_Ca3O3.
Proof.
  apply (get_most_stable_entry_append_no_better (P := toy_pymatgen) _ _ _ ("CaO", 2%float)).
  - apply swo_onb_spec. vm_compute. reflexivity.
  - vm_compute. reflexivity.
  - vm_compute. reflexivity.
  - repeat (apply Forall_cons; split); [..|done].
    all: intros _; split; vm_compute; reflexivity.
Defined.
(** ** The CIF files of the enumerated structures *)

Lemma list_ascii_of_string_app (s1 s2 : string) :
  list_ascii_of_string (s1 +:+ s2) = list_ascii_of_string s1 ++ list_ascii_of_string s2.
Proof. induction s1 as [|a s1 IH]; simpl; [done|]. by rewrite IH. Qed.

Lemma string_app_inj_r (s1 s2 t : string) : s1 +:+ t = s2 +:+ t -> s1 = s2.
Proof.
  intros H. apply (f_equal list_ascii_of_string) in H.
  rewrite !list_ascii_of_string_app in H. apply app_inv_tail in H.
  rewrite <- (string_of_list_ascii_of_string s1), <- (string_of_list_ascii_of_string s2).
  by rewrite H.
Qed.

Lemma cif_filename_inj_aux (i j : nat) : cif_filename i = cif_filename j -> i = j.
Proof.
  unfold cif_filename. intros H. apply (inj (String.append "CuAu_")) in H.
  apply string_app_inj_r in H. by apply (inj pretty) in H.
Qed.

(** X9: distinct indices give distinct file names, so no file of the loop
    overwrites another. *)
Theorem cif_filename_inj (i j : nat) : cif_filename i = cif_filename j -> i = j.
Proof.
  unfold cif_filename. intros H. apply (inj (String.append "CuAu_")) in H.
  apply string_app_inj_r in H. by apply (inj pretty) in H.
Qed.

Lemma cif_filename_inj_witness : 12 = 12.
Proof. apply (cif_filename_inj 12 12). reflexivity. Defined.

Lemma write_cifs_ok {V} (to_cif : V -> string) (n : nat) (ss : list (gmap string V))
    (fs : gmap string string) :
  Forall has_structure ss ->
  (write_cifs to_cif n ss fs).1 = Ok () ∧
  (∀ i d s, ss !! i = Some d -> d !! "structure"%string = Some s ->
     (write_cifs to_cif n ss fs).2 !! cif_filename (n + i) = Some (to_cif s)) ∧
  (∀ name, (∀ i, i < length ss -> name ≠ cif_filename (n + i)) ->
     (write_cifs to_cif n ss fs).2 !! name = fs !! name).
Proof.
  intros Hall. revert n fs. induction Hall as [|d t Hd Ht IH]; intros n fs.
  { split; [done|]. split; [|done]. intros i d s Hi. by rewrite lookup_nil in Hi. }
  destruct Hd as [s0 Hs0]. cbn [write_cifs]. unfold dict_getitem. rewrite Hs0.
  destruct (IH (S n) (<[cif_filename n := to_cif s0]> fs)) as (Hr & Hw & Hu).
  split; [done|]. split.
  - intros [|i] d' s Hi Hs; cbn [lookup list_lookup] in Hi.
    + injection Hi as <-. rewrite Hs0 in Hs. injection Hs as <-.
      rewrite Nat.add_0_r, Hu; [by rewrite lookup_insert_eq|].
      intros i _ Heq. apply cif_filename_inj_aux in Heq. lia.
    + rewrite <- Nat.add_succ_comm. by apply (Hw i d').
  - intros name Hname. rewrite Hu.
    + rewrite lookup_insert_ne; [done|]. intros <-.
      apply (Hname 0); [cbn [length]; lia|]. by rewrite Nat.add_0_r.
    + intros i Hi. rewrite Nat.add_succ_comm. apply Hname. cbn [length]. lia.
Qed.

(** X10: when every dict of [ss] has the key ["structure"], the loop
    finishes without an exception, file [CuAu_i.cif] holds the CIF text of
    the structure of [ss[i]], and every other file is left as it was. *)
Theorem write_all_cifs_ok {V} (to_cif : V -> string) (ss : list (gmap string V))
    (fs : gmap string string) :
  Forall has_structure ss ->
  (write_all_cifs to_cif ss fs).1 = Ok () ∧
  (∀ i d s, ss !! i = Some d -> d !! "structure"%string = Some s ->
     (write_all_cifs to_cif ss fs).2 !! cif_filename i = Some (to_cif s)) ∧
  (∀ name, (∀ i, i < length ss -> name ≠ cif_filename i) ->
     (write_all_cifs to_cif ss fs).2 !! name = fs !! name).
Proof. intros Hall. apply (write_cifs_ok to_cif 0 ss fs Hall). Qed.

Lemma write_all_cifs_ok_witness :
  (write_all_cifs id sample_ss ∅).1 = Ok () ∧
  (∀ i d s, sample_ss !! i = Some d -> d !! "structure"%string = Some s ->
     (write_all_cifs id sample_ss ∅).2 !! cif_filename i = Some (id s)) ∧
  (∀ name, (∀ i, i < length sample_ss -> name ≠ cif_filename i) ->
     (write_all_cifs id sample_ss ∅).2 !! name = (∅ : gmap string string) !! name).
Proof.
  apply write_all_cifs_ok. unfold sample_ss, has_structure.
  repeat constructor; vm_compute; eexists; reflexivity.
Defined.


Lemma write_cifs_app {V} (to_cif : V -> string) (n : nat) (pre rest : list (gmap string V))
    (fs : gmap string string) :
  Forall has_structure pre ->
  write_cifs to_cif n (pre ++ rest) fs =
  write_cifs to_cif (n + length pre) rest (write_cifs to_cif n pre fs).2.
Proof.
  intros Hall. revert n fs. induction Hall as [|d t Hd Ht IH]; intros n fs.
  { by rewrite Nat.add_0_r. }
  destruct Hd as [s0 Hs0]. cbn [app write_cifs length]. unfold dict_getitem. rewrite Hs0.
  rewrite IH. by rewrite Nat.add_succ_comm.
Qed.

(** X11: when [ss[k]] is the first dict without the key ["structure"], the
    loop raises [KeyError('structure')]; the files of [ss[0]] to [ss[k-1]]
    are written, and no other file is written or changed. *)
Theorem write_all_cifs_missing_key {V} (to_cif : V -> string)
    (pre : list (gmap string V)) (d : gmap string V) (post : list (gmap string V))
    (fs : gmap string string) :
  Forall has_structure pre ->
  d !! "structure"%string = None ->
  (write_all_cifs to_cif (pre ++ d :: post) fs).1 = Err (KeyError "structure") ∧
  (∀ i d' s, pre !! i = Some d' -> d' !! "structure"%string = Some s ->
     (write_all_cifs to_cif (pre ++ d :: post) fs).2 !! cif_filename i = Some (to_cif s)) ∧
  (∀ name, (∀ i, i < length pre -> name ≠ cif_filename i) ->
     (write_all_cifs to_cif (pre ++ d :: post) fs).2 !! name = fs !! name).
Proof.
  intros Hall Hd. unfold write_all_cifs. rewrite (write_cifs_app _ _ _ _ _ Hall).
  cbn [write_cifs]. unfold dict_getitem. rewrite Hd. cbn [fst snd].
  destruct (write_cifs_ok to_cif 0 pre fs Hall) as (_ & Hw & Hu).
  split; [done|]. split; [exact Hw|exact Hu].
Qed.

Lemma write_all_cifs_missing_key_witness :
  (write_all_cifs id (sample_ss ++ sample_no_structure :: sample_ss) ∅).1 =
    Err (KeyError "structure") ∧
  (∀ i d' s, sample_ss !! i = Some d' -> d' !! "structure"%string = Some s ->
     (write_all_cifs id (sample_ss ++ sample_no_structure :: sample_ss) ∅).2
       !! cif_filename i = Some (id s)) ∧
  (∀ name, (∀ i, i < length sample_ss -> name ≠ cif_filename i) ->
     (write_all_cifs id (sample_ss ++ sample_no_structure :: sample_ss) ∅).2
       !! name = (∅ : gmap string string) !! name).
Proof.
  apply write_all_cifs_missing_key.
  - unfold sample_ss, has_structure. repeat constructor; vm_compute; eexists; reflexivity.
  - vm_compute. reflexivity.
Defined.

